(** * QKV attention notebook: a shallow embedding of [QKV_Attention.ipynb]

    The notebook has four code cells.  The first one defines the helpers
    [tokenize] and [embed]; the second one holds the exercise skeletons
    [softmax] and [calculate_weights]; the third one runs the helpers on two
    example sentences; the fourth one holds the skeleton [attention_qkv] and
    prints the shape of its result.

    Python values are modelled by the inductive [pyval], exceptions by an
    error monad [result], NumPy arrays by their shape together with their
    row-major buffer of binary64 floats, [dict] by stdpp's [gmap]. *)

From Stdlib Require Import ZArith Lia Ascii String List.
From Stdlib Require Import Floats.PrimFloat.
From stdpp Require Import base option list strings gmap.

Local Open Scope Z_scope.

(** ** Exceptions *)

(** The built-in exceptions the cells can raise. *)
Inductive exn : Type :=
  | KeyError
  | IndexError
  | OverflowError
  | ValueError
  | TypeError
  | AttributeError
  | AssertionError.

Inductive result (A : Type) : Type :=
  | Ok (a : A)
  | Raise (e : exn).

Arguments Ok {A} a.
Arguments Raise {A} e.

Definition bind {A B : Type} (r : result A) (k : A -> result B) : result B :=
  match r with
  | Ok a => k a
  | Raise e => Raise e
  end.

Notation "x <- r ;; k" := (bind r (fun x => k))
  (at level 60, r at next level, right associativity).

(** [raises r] : the evaluation of [r] ends in some exception. *)
Definition raises {A : Type} (r : result A) : Prop := exists e, r = Raise e.

(** [returns r] : the evaluation of [r] ends normally. *)
Definition returns {A : Type} (r : result A) : Prop := exists a, r = Ok a.

(** [try: body except KeyError: handler]. Any other exception goes through. *)
Definition try_except_KeyError {A : Type} (body handler : result A) : result A :=
  match body with
  | Raise KeyError => handler
  | other => other
  end.

(** ** Strings *)

Module Str.

(** [s.split(sep)] for a one-character separator: every occurrence of the
    separator ends a field, so consecutive, leading and trailing separators
    give empty fields, and the empty string gives one empty field. *)
Fixpoint split (sep : ascii) (s : string) : list string :=
  match s with
  | EmptyString => [EmptyString]
  | String c rest =>
      if Ascii.eqb c sep then EmptyString :: split sep rest
      else match split sep rest with
           | field :: fields => String c field :: fields
           | [] => [String c EmptyString]
           end
  end.

(** [sep.join(fields)]. *)
Fixpoint join (sep : ascii) (fields : list string) : string :=
  match fields with
  | [] => EmptyString
  | [field] => field
  | field :: more => (field ++ String sep (join sep more))%string
  end.

(** Number of occurrences of a character. *)
Fixpoint count (c : ascii) (s : string) : nat :=
  match s with
  | EmptyString => 0%nat
  | String c' rest => ((if Ascii.eqb c' c then 1 else 0) + count c rest)%nat
  end.

(** [str.lower] on the ASCII letters; every other byte is kept.  On text
    whose cased characters outside ASCII are already lower case (the two
    example sentences are such) this is what [str.lower] returns on the
    UTF-8 encoding of the text. *)
Definition lower_ascii (c : ascii) : ascii :=
  let n := nat_of_ascii c in
  if (65 <=? n)%nat && (n <=? 90)%nat then ascii_of_nat (n + 32) else c.

Fixpoint lower (s : string) : string :=
  match s with
  | EmptyString => EmptyString
  | String c rest => String (lower_ascii c) (lower rest)
  end.

End Str.

(** ** Cell 1: [tokenize] *)

(** [token_mapping[word]] on a [dict]. *)
Definition dict_getitem (token_mapping : gmap string Z) (word : string) : result Z :=
  match token_mapping !! word with
  | Some index => Ok index
  | None => Raise KeyError
  end.

Section Tokenize.

(** [str.lower] follows the Unicode case tables, which are not part of the
    notebook: [tokenize] is embedded over any case mapping. [Str.lower] is
    the instance used on the example sentences. *)
Variable str_lower : string -> string.

(** The body of the [for word in ...] loop, over the list [tokenized]. *)
Definition tokenize_step (token_mapping : gmap string Z)
    (tokenized : list Z) (word : string) : result (list Z) :=
  try_except_KeyError
    (index <- dict_getitem token_mapping word ;; Ok (tokenized ++ [index]))
    (Ok (tokenized ++ [-1])).

Fixpoint tokenize_loop (token_mapping : gmap string Z)
    (words : list string) (tokenized : list Z) : result (list Z) :=
  match words with
  | [] => Ok tokenized
  | word :: more =>
      tokenized' <- tokenize_step token_mapping tokenized word ;;
      tokenize_loop token_mapping more tokenized'
  end.

Definition tokenize (sentence : string) (token_mapping : gmap string Z)
    : result (list Z) :=
  tokenize_loop token_mapping (Str.split " " (str_lower sentence)) [].

(** The token of one field: its index, or the sentinel. *)
Definition token_of (token_mapping : gmap string Z) (word : string) : Z :=
  match token_mapping !! word with
  | Some index => index
  | None => -1
  end.

End Tokenize.

(** ** NumPy arrays *)

(** An [ndarray] of [float64]: its shape, and its entries in row-major (C)
    order. *)
Record ndarray : Type := mk_ndarray {
  shape : list nat;
  data : list float
}.

(** Number of entries of an array of a given shape. *)
Definition size_of (sh : list nat) : nat := foldr Nat.mul 1%nat sh.

Definition ndim (a : ndarray) : nat := length (shape a).

(** The buffer has as many entries as the shape says. *)
Definition well_formed (a : ndarray) : Prop :=
  length (data a) = size_of (shape a).

(** No entry is an infinity or a NaN. *)
Definition finite (a : ndarray) : bool := forallb is_finite (data a).

(** [np.zeros(sh)]. *)
Definition np_zeros (sh : list nat) : ndarray :=
  mk_ndarray sh (replicate (size_of sh) 0%float).

(** [t[k]] on a tuple, for a position [k] that is not negative. *)
Definition tuple_getitem (t : list nat) (k : nat) : result nat :=
  match t !! k with
  | Some n => Ok n
  | None => Raise IndexError
  end.

(** A Python [int] that a C [long] of 64 bits holds. *)
Definition fits_c_long (k : Z) : bool :=
  (- 2 ^ 63 <=? k) && (k <? 2 ^ 63).

(** The exception of an index that the axis does not have: NumPy converts
    the Python [int] to a C [long], which raises [OverflowError] when it does
    not fit, and then finds it out of bounds. *)
Definition index_error (k : Z) : exn :=
  if fits_c_long k then IndexError else OverflowError.

(** An integer index into an axis of length [n]: a negative index counts
    from the end, an index outside [-n, n) raises [IndexError], or
    [OverflowError] from 2^63 on and below -2^63.  The length of an axis is a
    C [long] itself, so an index inside [-n, n) is one that fits. *)
Definition normalize_index (n : nat) (k : Z) : result nat :=
  if (0 <=? k) && (k <? Z.of_nat n) then Ok (Z.to_nat k)
  else if (- Z.of_nat n <=? k) && (k <? 0) then Ok (Z.to_nat (Z.of_nat n + k))
  else Raise (index_error k).

(** The [i]-th block of [sz] entries of a buffer. *)
Definition block (sz i : nat) (buf : list float) : list float :=
  take sz (drop (i * sz) buf).

(** [a[k]] for an integer [k]: the sub-array at position [k] of the first
    axis. *)
Definition ndarray_getitem (a : ndarray) (k : Z) : result ndarray :=
  match shape a with
  | [] => Raise IndexError
  | n :: inner =>
      i <- normalize_index n k ;;
      Ok (mk_ndarray inner (block (size_of inner) i (data a)))
  end.

(** Broadcasting of an assigned value to a row of [e] entries: the axes of
    the value before its last one must have length 1, and its last axis has
    length [e], or length 1 (the entry is then repeated). *)
Definition broadcast_to_row (value : ndarray) (e : nat) : result (list float) :=
  match rev (shape value) with
  | [] => Ok (replicate e (hd 0%float (data value)))
  | d :: leading =>
      if forallb (Nat.eqb 1) leading then
        if Nat.eqb d e then Ok (data value)
        else if Nat.eqb d 1 then Ok (replicate e (hd 0%float (data value)))
        else Raise ValueError
      else Raise ValueError
  end.

(** [a[i] = value] on a 2-dimensional [a], for a position [i] that is not
    negative: the position is checked first, then the value is broadcast to
    the row.  [embed] only assigns into its 2-dimensional [output]; targets
    of other shapes are left out, and the last case is never reached. *)
Definition ndarray_setitem (a : ndarray) (i : nat) (value : ndarray)
    : result ndarray :=
  match shape a with
  | [n; e] =>
      if (i <? n)%nat then
        row <- broadcast_to_row value e ;;
        Ok (mk_ndarray [n; e]
              (take (i * e) (data a) ++ row ++ drop ((i + 1) * e) (data a)))
      else Raise IndexError
  | _ => Raise TypeError
  end.

(** ** Cell 1: [embed] *)

(** The [for i, token in enumerate(tokens)] loop and its body; [i] is the
    counter of [enumerate]. *)
Definition embed_step (embeddings : ndarray) (embed_size : nat)
    (output : ndarray) (i : nat) (token : Z) : result ndarray :=
  if token =? -1 then
    ndarray_setitem output i (np_zeros [1%nat; embed_size])
  else
    row <- ndarray_getitem embeddings token ;;
    ndarray_setitem output i row.

Fixpoint embed_loop (embeddings : ndarray) (embed_size : nat)
    (tokens : list Z) (i : nat) (output : ndarray) : result ndarray :=
  match tokens with
  | [] => Ok output
  | token :: more =>
      output' <- embed_step embeddings embed_size output i token ;;
      embed_loop embeddings embed_size more (S i) output'
  end.

Definition embed (tokens : list Z) (embeddings : ndarray) : result ndarray :=
  embed_size <- tuple_getitem (shape embeddings) 1 ;;
  let output := np_zeros [length tokens; embed_size] in
  embed_loop embeddings embed_size tokens 0 output.

(** Row [i] of a 2-dimensional array. *)
Definition row (a : ndarray) (i : nat) : list float :=
  match shape a with
  | [_; e] => block e i (data a)
  | _ => []
  end.

(** The row [embeddings[token]] selects in a table of [n] rows. *)
Definition selected_row (n : nat) (token : Z) : nat :=
  if 0 <=? token then Z.to_nat token else Z.to_nat (Z.of_nat n + token).

(** The tokens [embed] accepts on a table of [n] rows. *)
Definition token_in_range (n : nat) (token : Z) : Prop :=
  token = -1 \/ (- Z.of_nat n <= token < Z.of_nat n).

(** The entries [embed] writes in the output row of [token], for a table of
    [n] rows and [e] columns. *)
Definition embedded_row (embeddings : ndarray) (n e : nat) (token : Z)
    : list float :=
  if token =? -1 then replicate e 0%float
  else block e (selected_row n token) (data embeddings).

(** ** Python values *)

(** The values the exercise cells handle. *)
Inductive pyval : Type :=
  | PyNone
  | PyInt (z : Z)
  | PyFloat (f : float)
  | PyArray (a : ndarray).

(** [obj.shape]: only arrays have the attribute. *)
Definition attr_shape (obj : pyval) : result (list nat) :=
  match obj with
  | PyArray a => Ok (shape a)
  | _ => Raise AttributeError
  end.

(** [obj[k]] for an integer [k]; an array without axes left is a scalar. *)
Definition subscript (obj : pyval) (k : Z) : result pyval :=
  match obj with
  | PyArray a =>
      sub <- ndarray_getitem a k ;;
      match shape sub with
      | [] => Ok (PyFloat (hd 0%float (data sub)))
      | _ => Ok (PyArray sub)
      end
  | _ => Raise TypeError
  end.

(** The truth value of [obj == 1], as [assert] takes it.  On an array the
    comparison is entry by entry, and only an array of one entry has a truth
    value. *)
Definition eq_one_truth (obj : pyval) : result bool :=
  match obj with
  | PyNone => Ok false
  | PyInt z => Ok (z =? 1)
  | PyFloat f => Ok (PrimFloat.eqb f 1%float)
  | PyArray a =>
      match data a with
      | [f] => Ok (PrimFloat.eqb f 1%float)
      | _ => Raise ValueError
      end
  end.

(** [v] is a matrix of [r] rows and [c] columns. *)
Definition is_matrix (v : pyval) (r c : nat) : Prop :=
  exists a, v = PyArray a /\ shape a = [r; c].

(** ** Cell 2: the skeletons [softmax] and [calculate_weights] *)

(** The body of [softmax] is its docstring followed by [pass]: the call ends
    without a [return] statement, so its value is [None], whatever [x] and
    [axis] (0 when it is not given) are. *)
Definition softmax (x : pyval) (axis : Z) : result pyval :=
  Ok PyNone.

Section Numpy.

(** [a.sum(axis=k)] is NumPy's reduction (a pairwise summation in binary64,
    [AxisError] on a bad axis); it is not code of the notebook. *)
Variable np_sum : ndarray -> Z -> result pyval.

(** [obj.sum(axis=k)]: the attribute is looked up first. *)
Definition method_sum (obj : pyval) (axis : Z) : result pyval :=
  match obj with
  | PyArray a => np_sum a axis
  | _ => Raise AttributeError
  end.

(** [dot] is the placeholder [None]; the function ends on [pass]. *)
Definition calculate_weights (queries keys : pyval) : result pyval :=
  let dot := PyNone in
  weights <- softmax dot 1 ;;
  sums <- method_sum weights 1 ;;
  first <- subscript sums 0 ;;
  holds <- eq_one_truth first ;;
  if holds : bool then Ok PyNone else Raise AssertionError.

End Numpy.

(** ** Cell 4: the skeleton [attention_qkv] *)

(** The body is a docstring followed by [pass]. *)
Definition attention_qkv (queries keys values : pyval) : result pyval :=
  Ok PyNone.

(** [obj[0:2, :10]]: the first ten entries of the first two rows. *)
Definition slice_2_10 (obj : pyval) : result ndarray :=
  match obj with
  | PyArray a =>
      match shape a with
      | [n; e] =>
          let rows := map (fun i => take 10 (row a i)) (seq 0 (Nat.min 2 n)) in
          Ok (mk_ndarray [Nat.min 2 n; Nat.min 10 e] (concat rows))
      | _ => Raise IndexError
      end
  | _ => Raise TypeError
  end.

(** What the cell prints: the shape of the result and the slice. *)
Definition cell_attention (embedded_fr embedded_en : ndarray)
    : result (list nat * ndarray) :=
  attention_qkv_result <-
    attention_qkv (PyArray embedded_fr) (PyArray embedded_en) (PyArray embedded_en) ;;
  printed_shape <- attr_shape attention_qkv_result ;;
  printed_elements <- slice_2_10 attention_qkv_result ;;
  Ok (printed_shape, printed_elements).

(** ** Cell 3: the example sentences *)

Definition sentence_en : string :=
  "The agreement on the European Economic Area was signed in August 1992 .".

Definition sentence_fr : string :=
  "L accord sur la zone économique européenne a été signé en août 1992 .".

Section Examples.

Variable str_lower : string -> string.
Variable np_sum : ndarray -> Z -> result pyval.

(** The pickled dictionaries and the embedding tables are data files that
    the first cell loads. *)
Variables en_words fr_words : gmap string Z.
Variables en_embeddings fr_embeddings : ndarray.

(** The cell up to the call of [calculate_weights]; the plot follows it. *)
Definition cell_alignment : result pyval :=
  tokenized_en <- tokenize str_lower sentence_en en_words ;;
  embedded_en <- embed tokenized_en en_embeddings ;;
  tokenized_fr <- tokenize str_lower sentence_fr fr_words ;;
  embedded_fr <- embed tokenized_fr fr_embeddings ;;
  calculate_weights np_sum (PyArray embedded_fr) (PyArray embedded_en).

(** The two embedded sentences, as the fourth cell finds them. *)
Definition embedded_sentences : result (ndarray * ndarray) :=
  tokenized_en <- tokenize str_lower sentence_en en_words ;;
  embedded_en <- embed tokenized_en en_embeddings ;;
  tokenized_fr <- tokenize str_lower sentence_fr fr_words ;;
  embedded_fr <- embed tokenized_fr fr_embeddings ;;
  Ok (embedded_fr, embedded_en).

Definition notebook_attention : result (list nat * ndarray) :=
  sentences <- embedded_sentences ;;
  cell_attention (fst sentences) (snd sentences).

End Examples.

(** The two lines the third cell runs on each sentence: the sentence is
    tokenized, and the tokens are embedded. *)
Definition embed_sentence (str_lower : string -> string) (sentence : string)
    (token_mapping : gmap string Z) (embeddings : ndarray) : result ndarray :=
  tokenized <- tokenize str_lower sentence token_mapping ;;
  embed tokenized embeddings.

(** Every index the dictionary stores is a row of a table of [n] rows. *)
Definition indices_in_table (token_mapping : gmap string Z) (n : nat) : Prop :=
  forall word index,
    token_mapping !! word = Some index -> - Z.of_nat n <= index < Z.of_nat n.

(** ** Example inputs *)

Definition example_table : ndarray :=
  mk_ndarray [3%nat; 2%nat] [1; 2; 3; 4; 5; 6]%float.

Definition example_vector : ndarray :=
  mk_ndarray [3%nat] [1; 2; 3]%float.

Definition values_2 : ndarray :=
  mk_ndarray [2%nat; 2%nat] [10; 0; 0; 10]%float.

Definition queries_1x2 : ndarray := mk_ndarray [1%nat; 2%nat] [1; 0]%float.
Definition keys_1x3 : ndarray := mk_ndarray [1%nat; 3%nat] [1; 0; 0]%float.

(** * Properties *)

(** ** The error monad *)

Lemma returns_not_raises {A : Type} (r : result A) : returns r -> ~ raises r.
Proof. intros [a ->] [e He]. discriminate He. Qed.

Lemma raises_not_returns {A : Type} (r : result A) : raises r -> ~ returns r.
Proof. intros Hr Hok. exact (returns_not_raises r Hok Hr). Qed.

Lemma bind_Ok {A B : Type} (a : A) (k : A -> result B) : bind (Ok a) k = k a.
Proof. reflexivity. Qed.

Lemma bind_Raise {A B : Type} (e : exn) (k : A -> result B) :
  bind (Raise e) k = Raise e.
Proof. reflexivity. Qed.

(** ** [str.split] *)

Module StrFacts.

Lemma split_not_nil sep s : Str.split sep s <> [].
Proof.
  destruct s as [|c rest]; simpl; [discriminate|].
  destruct (Ascii.eqb c sep); [discriminate|].
  destruct (Str.split sep rest); discriminate.
Qed.

(** One field more than there are separators. *)
Lemma split_length sep s :
  length (Str.split sep s) = S (Str.count sep s).
Proof.
  induction s as [|c rest IH]; simpl; [reflexivity|].
  destruct (Ascii.eqb c sep); simpl.
  - now rewrite IH.
  - destruct (Str.split sep rest) as [|field fields] eqn:E.
    + now destruct (split_not_nil sep rest).
    + simpl in *. exact IH.
Qed.

(** Joining the fields with the separator gives the string back. *)
Lemma join_split sep s : Str.join sep (Str.split sep s) = s.
Proof.
  induction s as [|c rest IH]; simpl; [reflexivity|].
  destruct (Ascii.eqb c sep) eqn:Ec.
  - apply Ascii.eqb_eq in Ec. subst c.
    destruct (Str.split sep rest) as [|field fields] eqn:E.
    + now destruct (split_not_nil sep rest).
    + simpl. now rewrite <- IH.
  - destruct (Str.split sep rest) as [|field fields] eqn:E.
    + now destruct (split_not_nil sep rest).
    + rewrite <- IH. simpl. now destruct fields.
Qed.

(** No field holds a separator. *)
Lemma split_fields_clean sep s :
  Forall (fun field => Str.count sep field = 0%nat) (Str.split sep s).
Proof.
  induction s as [|c rest IH]; simpl.
  - now constructor.
  - destruct (Ascii.eqb c sep) eqn:Ec.
    + now constructor.
    + destruct (Str.split sep rest) as [|field fields] eqn:E.
      * constructor; [|constructor]. simpl. now rewrite Ec.
      * inversion IH as [|? ? Hf Hfs]; subst.
        constructor; [|assumption]. simpl. now rewrite Ec.
Qed.

Example split_spaces :
  Str.split " " " a  b " = [""; "a"; ""; "b"; ""]%string.
Proof. reflexivity. Qed.

Example split_empty : Str.split " " "" = [""%string].
Proof. reflexivity. Qed.

Example lower_sentence_fr :
  length (Str.split " " (Str.lower sentence_fr)) = 14%nat.
Proof. reflexivity. Qed.

Example lower_sentence_en :
  length (Str.split " " (Str.lower sentence_en)) = 13%nat.
Proof. reflexivity. Qed.

End StrFacts.

(** ** [tokenize] *)

Section TokenizeFacts.

Variable str_lower : string -> string.
Implicit Types (token_mapping : gmap string Z) (word : string).

Lemma token_of_known token_mapping word index :
  token_mapping !! word = Some index -> token_of token_mapping word = index.
Proof. unfold token_of. now intros ->. Qed.

Lemma token_of_unknown token_mapping word :
  token_mapping !! word = None -> token_of token_mapping word = -1.
Proof. unfold token_of. now intros ->. Qed.

(** One turn of the loop appends one token and never raises: the only
    exception of the lookup is the one the handler catches. *)
Lemma tokenize_step_appends token_mapping tokenized word :
  tokenize_step token_mapping tokenized word
  = Ok (tokenized ++ [token_of token_mapping word]).
Proof.
  unfold tokenize_step, dict_getitem, token_of.
  now destruct (token_mapping !! word).
Qed.

Lemma tokenize_loop_appends token_mapping words tokenized :
  tokenize_loop token_mapping words tokenized
  = Ok (tokenized ++ map (token_of token_mapping) words).
Proof.
  revert tokenized.
  induction words as [|word more IH]; intros tokenized; simpl.
  - now rewrite app_nil_r.
  - rewrite tokenize_step_appends, bind_Ok, IH.
    now rewrite <- app_assoc.
Qed.

Lemma tokenize_eq sentence token_mapping :
  tokenize str_lower sentence token_mapping
  = Ok (map (token_of token_mapping) (Str.split " " (str_lower sentence))).
Proof. unfold tokenize. now rewrite tokenize_loop_appends. Qed.

(** C9. [tokenize] raises nothing and returns one integer for each field
    that [split(" ")] finds in the lower-cased sentence, in order: the index
    of the field in the mapping, and -1 for a field the mapping does not
    have, the empty fields of consecutive, leading or trailing spaces
    included. *)
Theorem tokenize_one_token_per_field sentence token_mapping :
  let fields := Str.split " " (str_lower sentence) in
  exists tokens,
    tokenize str_lower sentence token_mapping = Ok tokens
    /\ length tokens = length fields
    /\ length tokens = S (Str.count " " (str_lower sentence))
    /\ (forall i word, fields !! i = Some word ->
          tokens !! i = Some (token_of token_mapping word))
    /\ (forall i word, fields !! i = Some word ->
          token_mapping !! word = None -> tokens !! i = Some (-1)).
Proof.
  intros fields.
  exists (map (token_of token_mapping) fields).
  assert (Hlookup : forall i word, fields !! i = Some word ->
            map (token_of token_mapping) fields !! i
            = Some (token_of token_mapping word)).
  { intros i word Hi. change (map (token_of token_mapping) fields) with (token_of token_mapping <$> fields). now rewrite list_lookup_fmap, Hi. }
  repeat split.
  - apply tokenize_eq.
  - apply length_map.
  - rewrite length_map. apply StrFacts.split_length.
  - exact Hlookup.
  - intros i word Hi Hnone.
    rewrite (Hlookup i word Hi). now rewrite token_of_unknown.
Qed.

End TokenizeFacts.

(** Leading, doubled and trailing spaces: five fields, five tokens. *)
Example tokenize_spaces :
  tokenize Str.lower " The  cat " (<["the" := 3]> (<["dog" := 7]> ∅))
  = Ok [-1; 3; -1; -1; -1].
Proof. reflexivity. Qed.

(** ** Array buffers *)

Lemma size_of_matrix n e : size_of [n; e] = (n * e)%nat.
Proof. unfold size_of. simpl. lia. Qed.

Lemma size_of_vector e : size_of [e] = e.
Proof. unfold size_of. simpl. lia. Qed.

Lemma block_length sz i (buf : list float) :
  (S i * sz <= length buf)%nat -> length (block sz i buf) = sz.
Proof.
  intros H. unfold block. rewrite length_take, length_drop. lia.
Qed.

(** Blocks of a buffer made of rows of the same length are its rows. *)
Lemma block_concat sz (rows : list (list float)) i r :
  Forall (fun r => length r = sz) rows ->
  rows !! i = Some r ->
  block sz i (concat rows) = r.
Proof.
  intros Hlen. revert i.
  induction Hlen as [|r0 rows Hr0 Hrows IH]; intros i Hi.
  - now rewrite lookup_nil in Hi.
  - destruct i as [|i]; simpl in Hi.
    + injection Hi as <-. unfold block.
      change (0 * sz)%nat with 0%nat. rewrite drop_0. simpl concat.
      rewrite take_app_length'; [reflexivity | now symmetry].
    + unfold block. simpl concat.
      replace (S i * sz)%nat with (length r0 + i * sz)%nat by lia.
      rewrite <- drop_drop, drop_app_length.
      now apply IH.
Qed.

Lemma normalize_index_ok n token :
  - Z.of_nat n <= token < Z.of_nat n ->
  normalize_index n token = Ok (selected_row n token)
  /\ (selected_row n token < n)%nat.
Proof.
  intros H. unfold normalize_index, selected_row.
  destruct (Z.leb_spec 0 token) as [Hpos|Hneg]; simpl.
  - destruct (Z.ltb_spec token (Z.of_nat n)); [split; [reflexivity|lia] | lia].
  - destruct (Z.leb_spec (- Z.of_nat n) token); [|lia].
    destruct (Z.ltb_spec token 0); [|lia].
    simpl. split; [reflexivity|lia].
Qed.

Lemma normalize_index_out n token :
  ~ (- Z.of_nat n <= token < Z.of_nat n) ->
  normalize_index n token = Raise (index_error token).
Proof.
  intros H. unfold normalize_index.
  destruct (Z.leb_spec 0 token); destruct (Z.ltb_spec token (Z.of_nat n));
    destruct (Z.leb_spec (- Z.of_nat n) token); destruct (Z.ltb_spec token 0);
    simpl; try reflexivity; lia.
Qed.

(** A negative index selects a row counted from the end. *)
Lemma selected_row_negative n token :
  token < 0 -> selected_row n token = Z.to_nat (Z.of_nat n + token).
Proof.
  intros H. unfold selected_row. destruct (Z.leb_spec 0 token); [lia|reflexivity].
Qed.

Lemma selected_row_nonnegative n token :
  0 <= token -> selected_row n token = Z.to_nat token.
Proof.
  intros H. unfold selected_row. destruct (Z.leb_spec 0 token); [reflexivity|lia].
Qed.

(** ** [embed] *)

Section EmbedFacts.

(** A table of [n] rows and [e] columns. *)
Variables (embeddings : ndarray) (n e : nat).
Hypothesis table_shape : shape embeddings = [n; e].
Hypothesis table_wf : well_formed embeddings.

Lemma table_length : length (data embeddings) = (n * e)%nat.
Proof.
  unfold well_formed in table_wf.
  now rewrite table_wf, table_shape, size_of_matrix.
Qed.

Lemma token_in_range_dec token :
  token_in_range n token \/ ~ token_in_range n token.
Proof. unfold token_in_range. lia. Qed.

Lemma embedded_row_length token :
  token_in_range n token -> length (embedded_row embeddings n e token) = e.
Proof.
  intros Hin. unfold embedded_row.
  destruct (Z.eqb_spec token (-1)) as [->|Hne].
  - apply length_replicate.
  - destruct Hin as [?|Hin]; [contradiction|].
    destruct (normalize_index_ok n token Hin) as [_ Hlt].
    apply block_length. rewrite table_length. nia.
Qed.

(** One turn of the loop on an accepted token writes its row at position
    [i] and leaves the other entries of the buffer. *)
Lemma embed_step_in_range output m i token :
  shape output = [m; e] -> (i < m)%nat -> token_in_range n token ->
  embed_step embeddings e output i token
  = Ok (mk_ndarray [m; e]
          (take (i * e) (data output)
             ++ embedded_row embeddings n e token
             ++ drop ((i + 1) * e) (data output))).
Proof.
  intros Hout Hi Hin. unfold embed_step, embedded_row.
  destruct (Z.eqb_spec token (-1)) as [->|Hne].
  - unfold ndarray_setitem. rewrite Hout.
    destruct (Nat.ltb_spec i m); [|lia].
    unfold broadcast_to_row. simpl. rewrite Nat.eqb_refl. simpl.
    replace (e * 1 + 0)%nat with e by lia. reflexivity.
  - destruct Hin as [?|Hin]; [contradiction|].
    destruct (normalize_index_ok n token Hin) as [Hnorm _].
    unfold ndarray_getitem. rewrite table_shape, Hnorm, bind_Ok, bind_Ok.
    unfold ndarray_setitem. rewrite Hout.
    destruct (Nat.ltb_spec i m); [|lia].
    unfold broadcast_to_row. simpl. rewrite Nat.eqb_refl. simpl.
    now rewrite Nat.mul_1_r.
Qed.

(** A token outside the table, other than the sentinel, stops the loop. *)
Lemma embed_step_out_of_range output i token :
  ~ token_in_range n token ->
  embed_step embeddings e output i token = Raise (index_error token).
Proof.
  intros Hout. unfold token_in_range in Hout. unfold embed_step.
  destruct (Z.eqb_spec token (-1)) as [->|Hne]; [lia|].
  unfold ndarray_getitem. rewrite table_shape.
  rewrite normalize_index_out by lia. reflexivity.
Qed.

Lemma embed_loop_in_range tokens : forall i output m,
  shape output = [m; e] ->
  length (data output) = (m * e)%nat ->
  (i + length tokens <= m)%nat ->
  Forall (token_in_range n) tokens ->
  embed_loop embeddings e tokens i output
  = Ok (mk_ndarray [m; e]
          (take (i * e) (data output)
             ++ concat (map (embedded_row embeddings n e) tokens)
             ++ drop ((i + length tokens) * e) (data output))).
Proof.
  induction tokens as [|token more IH]; intros i output m Hout Hlen Hi Hin.
  - simpl. rewrite Nat.add_0_r, take_drop.
    destruct output as [sh buf]. simpl in *. now subst sh.
  - inversion Hin as [|? ? Htoken Hmore]; subst. simpl in Hi.
    simpl embed_loop.
    rewrite (embed_step_in_range output m i token Hout) by (assumption || lia).
    rewrite bind_Ok.
    pose proof (embedded_row_length token Htoken) as Hrow.
    set (P := take (i * e) (data output)) in *.
    set (R := embedded_row embeddings n e token) in *.
    set (D := drop ((i + 1) * e) (data output)) in *.
    assert (HP : length P = (i * e)%nat).
    { unfold P. rewrite length_take. nia. }
    assert (HD : length D = (m * e - (i + 1) * e)%nat).
    { unfold D. rewrite length_drop. lia. }
    rewrite (IH (S i) _ m); simpl shape; simpl data; try reflexivity.
    + do 2 f_equal.
      assert (HPR : length (P ++ R) = (S i * e)%nat).
      { rewrite length_app. lia. }
      rewrite (app_assoc P R D).
      rewrite take_app_length' by (now symmetry).
      rewrite drop_app_ge by (rewrite HPR; nia).
      rewrite HPR. unfold D. rewrite drop_drop.
      simpl concat. rewrite <- !app_assoc. do 3 f_equal.
      simpl length. f_equal. nia.
    + rewrite !length_app, HP, Hrow, HD. nia.
    + lia.
    + assumption.
Qed.

(** The first token that [embed] does not accept stops the loop, whatever
    follows it. *)
Lemma embed_loop_first_rejected accepted bad rest : forall i output m,
  shape output = [m; e] ->
  length (data output) = (m * e)%nat ->
  (i + length (accepted ++ bad :: rest) <= m)%nat ->
  Forall (token_in_range n) accepted ->
  ~ token_in_range n bad ->
  embed_loop embeddings e (accepted ++ bad :: rest) i output
  = Raise (index_error bad).
Proof.
  induction accepted as [|token more IH]; intros i output m Hout Hlen Hi Hin Hbad.
  - simpl. now rewrite embed_step_out_of_range.
  - inversion Hin as [|? ? Htoken Hmore]; subst.
    rewrite length_app in Hi. simpl in Hi.
    simpl app. simpl embed_loop.
    rewrite (embed_step_in_range output m i token Hout) by (assumption || lia).
    rewrite bind_Ok.
    apply (IH (S i) _ m); simpl shape; simpl data;
      try reflexivity; try assumption.
    + pose proof (embedded_row_length token Htoken) as Hrow.
      rewrite !length_app, Hrow, length_take, length_drop. nia.
    + rewrite length_app. simpl. lia.
Qed.

(** A list with a token that is not accepted splits at the first such
    token. *)
Lemma first_rejected_split (tokens : list Z) :
  Exists (fun token => ~ token_in_range n token) tokens ->
  exists accepted bad rest,
    tokens = accepted ++ bad :: rest
    /\ Forall (token_in_range n) accepted
    /\ ~ token_in_range n bad.
Proof.
  induction tokens as [|token more IH]; intros Hbad; [inversion Hbad|].
  destruct (token_in_range_dec token) as [Hin|Hnot].
  - inversion Hbad as [? ? Hhead|? ? Htail]; subst; [contradiction|].
    destruct (IH Htail) as [accepted [bad [rest [-> [Hacc Hnot]]]]].
    exists (token :: accepted), bad, rest.
    split; [reflexivity|]. split; [now constructor|assumption].
  - exists [], token, more. split; [reflexivity|]. split; [constructor|assumption].
Qed.

Lemma embed_in_range tokens :
  Forall (token_in_range n) tokens ->
  embed tokens embeddings
  = Ok (mk_ndarray [length tokens; e]
          (concat (map (embedded_row embeddings n e) tokens))).
Proof.
  intros Hin. unfold embed, tuple_getitem. rewrite table_shape. simpl lookup.
  cbv beta iota. rewrite bind_Ok.
  rewrite (embed_loop_in_range tokens 0 _ (length tokens));
    simpl shape; simpl data; try reflexivity; try assumption; try lia.
  - do 2 f_equal. simpl.
    rewrite drop_ge by (rewrite length_replicate; lia).
    now rewrite app_nil_r.
  - rewrite length_replicate. lia.
Qed.

Lemma embed_first_rejected accepted bad rest :
  Forall (token_in_range n) accepted ->
  ~ token_in_range n bad ->
  embed (accepted ++ bad :: rest) embeddings = Raise (index_error bad).
Proof.
  intros Hin Hbad. unfold embed, tuple_getitem. rewrite table_shape. simpl lookup.
  cbv beta iota. rewrite bind_Ok.
  apply (embed_loop_first_rejected accepted bad rest 0 _
           (length (accepted ++ bad :: rest)));
    simpl shape; simpl data; try reflexivity; try assumption; try lia.
  rewrite length_replicate. lia.
Qed.

(** A token that is not accepted makes [embed] raise the exception of the
    first such token. *)
Lemma embed_out_of_range tokens :
  Exists (fun token => ~ token_in_range n token) tokens ->
  exists bad,
    bad ∈ tokens
    /\ ~ token_in_range n bad
    /\ embed tokens embeddings = Raise (index_error bad).
Proof.
  intros Hbad.
  destruct (first_rejected_split tokens Hbad)
    as [accepted [bad [rest [-> [Hacc Hnot]]]]].
  exists bad. split; [|split; [assumption|now apply embed_first_rejected]].
  apply elem_of_app. right. apply list_elem_of_here.
Qed.

End EmbedFacts.

Lemma row_of_matrix n e buf i :
  row (mk_ndarray [n; e] buf) i = block e i buf.
Proof. reflexivity. Qed.

(** C10, as the code has it.  On a table of [n] rows and [e] columns, and
    tokens that are the sentinel -1 or lie in [-n, n), [embed] returns a
    matrix of one row per token and [e] columns; the row of a sentinel is
    all zero, the row of any other token is the table row it selects, which
    for a negative token is row [n + token], counted from the end. *)
Theorem embed_rows (tokens : list Z) (embeddings : ndarray) (n e : nat) :
  shape embeddings = [n; e] ->
  well_formed embeddings ->
  Forall (token_in_range n) tokens ->
  exists output,
    embed tokens embeddings = Ok output
    /\ shape output = [length tokens; e]
    /\ well_formed output
    /\ forall i token, tokens !! i = Some token ->
         (token = -1 -> row output i = replicate e 0%float)
         /\ (token <> -1 ->
               row output i = row embeddings (selected_row n token))
         /\ (token < -1 ->
               row output i = row embeddings (Z.to_nat (Z.of_nat n + token))).
Proof.
  intros Hshape Hwf Hin.
  set (rows := map (embedded_row embeddings n e) tokens).
  assert (Hrows : Forall (fun r => length r = e) rows).
  { unfold rows. apply Forall_map.
    eapply Forall_impl; [exact Hin|].
    intros token Htoken. now apply embedded_row_length. }
  exists (mk_ndarray [length tokens; e] (concat rows)).
  split; [now apply embed_in_range|].
  split; [reflexivity|].
  split.
  { unfold well_formed. simpl shape. simpl data. rewrite size_of_matrix.
    unfold rows. clear Hrows rows.
    induction Hin as [|token more Htoken Hmore IH]; [reflexivity|].
    simpl. rewrite length_app, IH.
    rewrite (embedded_row_length embeddings n e Hshape Hwf token Htoken). lia. }
  intros i token Hi.
  assert (Hrow : row (mk_ndarray [length tokens; e] (concat rows)) i
                 = embedded_row embeddings n e token).
  { rewrite row_of_matrix. apply block_concat; [exact Hrows|].
    unfold rows.
    change (map (embedded_row embeddings n e) tokens)
      with (embedded_row embeddings n e <$> tokens).
    now rewrite list_lookup_fmap, Hi. }
  rewrite Hrow. unfold embedded_row, row. rewrite Hshape.
  destruct (Z.eqb_spec token (-1)) as [->|Hne].
  - split; [reflexivity|]. split; [contradiction|lia].
  - split; [contradiction|]. split; [reflexivity|].
    intros Hneg. now rewrite selected_row_negative by lia.
Qed.

Lemma embed_rows_witness :
  exists output,
    embed [0; -1; -2] example_table = Ok output
    /\ shape output = [3%nat; 2%nat]
    /\ well_formed output
    /\ forall i token, [0; -1; -2] !! i = Some token ->
         (token = -1 -> row output i = replicate 2 0%float)
         /\ (token <> -1 ->
               row output i = row example_table (selected_row 3 token))
         /\ (token < -1 ->
               row output i = row example_table (Z.to_nat (Z.of_nat 3 + token))).
Proof.
  apply (embed_rows [0; -1; -2] example_table 3 2).
  - reflexivity.
  - reflexivity.
  - repeat constructor; unfold token_in_range; lia.
Defined.

Example embed_example :
  embed [0; -1; -2; 2; -3] example_table
  = Ok (mk_ndarray [5%nat; 2%nat] [1; 2; 0; 0; 3; 4; 5; 6; 1; 2]%float).
Proof. reflexivity. Qed.

Lemma index_error_fits k :
  - 2 ^ 63 <= k < 2 ^ 63 -> index_error k = IndexError.
Proof.
  intros H. unfold index_error, fits_c_long.
  destruct (Z.leb_spec (- 2 ^ 63) k); [|lia].
  destruct (Z.ltb_spec k (2 ^ 63)); [reflexivity|lia].
Qed.



Example embed_largest_c_long :
  embed [2 ^ 63 - 1] example_table = Raise IndexError.
Proof. reflexivity. Qed.

Example embed_beyond_c_long :
  embed [0; 2 ^ 63; 7] example_table = Raise OverflowError.
Proof. reflexivity. Qed.

Example embed_below_c_long :
  embed [- 2 ^ 63 - 1] example_table = Raise OverflowError.
Proof. reflexivity. Qed.

(** C10, as stated, fails twice.  A table row can be all zero, so a zero row
    of the output does not tell that the token was -1; and a token outside
    the table gives no matrix at all. *)
Lemma embed_zero_row_without_sentinel :
  let table := mk_ndarray [1%nat; 1%nat] [0%float] in
  (exists output,
     embed [0] table = Ok output
     /\ row output 0 = replicate 1 0%float
     /\ [0] !! 0%nat = Some 0 /\ 0 <> -1)
  /\ embed [1] table = Raise IndexError
  /\ embed [-2] table = Raise IndexError.
Proof.
  simpl. split; [|split; reflexivity].
  eexists. split; [reflexivity|]. split; [reflexivity|]. split; [reflexivity|lia].
Qed.

(** ** The skeleton [softmax] *)

Lemma softmax_None x axis : softmax x axis = Ok PyNone.
Proof. reflexivity. Qed.

Lemma None_not_matrix r c : ~ is_matrix PyNone r c.
Proof. intros [a [Ha _]]. discriminate Ha. Qed.

(** C2, on the code.  Whatever the matrix and the axis, the skeleton returns
    [None]: no matrix of the shape of [X] comes back, so there are no rows
    that could sum to 1, although the docstring promises them. *)
Theorem softmax_returns_no_matrix (X : ndarray) (axis : Z) (r c : nat) :
  softmax (PyArray X) axis = Ok PyNone
  /\ ~ (exists W, softmax (PyArray X) axis = Ok W /\ is_matrix W r c).
Proof.
  split; [reflexivity|].
  intros [W [HW Hm]]. rewrite softmax_None in HW. injection HW as <-.
  exact (None_not_matrix r c Hm).
Qed.

(** ** The skeleton [calculate_weights] *)

(** C8, on the code.  The [assert] statement of [calculate_weights] cannot
    succeed: [weights] is [None], so the look-up of [weights.sum] raises
    [AttributeError] before any sum is compared with 1. *)
Theorem calculate_weights_raises_AttributeError
    (np_sum : ndarray -> Z -> result pyval) (queries keys : pyval) :
  calculate_weights np_sum queries keys = Raise AttributeError.
Proof. reflexivity. Qed.

Lemma calculate_weights_never_returns
    (np_sum : ndarray -> Z -> result pyval) (queries keys : pyval) :
  ~ returns (calculate_weights np_sum queries keys).
Proof. intros [v Hv]. discriminate Hv. Qed.

(** ** The skeleton [attention_qkv] *)

Lemma attention_qkv_None queries keys values :
  attention_qkv queries keys values = Ok PyNone.
Proof. reflexivity. Qed.

(** C1, on the code.  For matrices [Q], [K] and [V] of any shapes the
    skeleton returns [None], not a matrix of [n_q] rows and [d_v] columns. *)
Theorem attention_qkv_returns_no_matrix (Q K V : ndarray) (n_q d_v : nat) :
  attention_qkv (PyArray Q) (PyArray K) (PyArray V) = Ok PyNone
  /\ ~ (exists out, attention_qkv (PyArray Q) (PyArray K) (PyArray V) = Ok out
                    /\ is_matrix out n_q d_v).
Proof.
  split; [reflexivity|].
  intros [out [Hout Hm]]. rewrite attention_qkv_None in Hout.
  injection Hout as <-. exact (None_not_matrix n_q d_v Hm).
Qed.

(** C6, on the code.  The keys have 3 columns and 1 row, the queries 2
    columns and the values 2 rows: the products of the notebook's formula are
    not defined on these shapes, and the skeleton still ends without an
    exception, returning [None]. *)
Lemma attention_qkv_mismatch_not_rejected :
  shape queries_1x2 = [1%nat; 2%nat]
  /\ shape keys_1x3 = [1%nat; 3%nat]
  /\ shape values_2 = [2%nat; 2%nat]
  /\ attention_qkv (PyArray queries_1x2) (PyArray keys_1x3) (PyArray values_2)
     = Ok PyNone
  /\ ~ raises (attention_qkv (PyArray queries_1x2) (PyArray keys_1x3) (PyArray values_2)).
Proof.
  repeat (split; [reflexivity|]). intros [e He]. discriminate He.
Qed.

(** ** The example cells *)

Lemma cell_attention_raises (embedded_fr embedded_en : ndarray) :
  cell_attention embedded_fr embedded_en = Raise AttributeError.
Proof. reflexivity. Qed.

(** C7, on the code.  Whatever the dictionaries and the embedding tables
    hold, the fourth cell prints no shape and no entries: the result of
    [attention_qkv] is [None], and reading its [shape] raises
    [AttributeError]. *)
Theorem notebook_attention_prints_nothing
    (str_lower : string -> string)
    (en_words fr_words : gmap string Z) (en_embeddings fr_embeddings : ndarray) :
  (forall embedded_fr embedded_en,
     cell_attention embedded_fr embedded_en = Raise AttributeError)
  /\ ~ returns (notebook_attention str_lower en_words fr_words
                  en_embeddings fr_embeddings).
Proof.
  split; [intros; reflexivity|].
  intros [printed Hp]. unfold notebook_attention in Hp.
  destruct (embedded_sentences _ _ _ _ _) as [[fr en]|e]; simpl in Hp.
  - rewrite cell_attention_raises in Hp. discriminate Hp.
  - discriminate Hp.
Qed.

(** The third cell stops in [calculate_weights] or before it. *)
Lemma cell_alignment_never_returns
    (str_lower : string -> string) (np_sum : ndarray -> Z -> result pyval)
    (en_words fr_words : gmap string Z) (en_embeddings fr_embeddings : ndarray) :
  ~ returns (cell_alignment str_lower np_sum en_words fr_words
               en_embeddings fr_embeddings).
Proof.
  intros [v Hv]. unfold cell_alignment in Hv.
  rewrite !tokenize_eq in Hv. simpl bind in Hv.
  destruct (embed _ en_embeddings); simpl in Hv; [|discriminate Hv].
  destruct (embed _ fr_embeddings); simpl in Hv; discriminate Hv.
Qed.

(** With the ASCII case mapping, tables of 300 columns and tokens inside the
    tables, the queries of the fourth cell have the shape (14, 300) that the
    notebook documents for the result. *)
Lemma embedded_fr_shape (fr_words : gmap string Z) (fr_embeddings : ndarray) (n : nat) :
  shape fr_embeddings = [n; 300%nat] ->
  well_formed fr_embeddings ->
  Forall (token_in_range n)
    (map (token_of fr_words) (Str.split " " (Str.lower sentence_fr))) ->
  exists tokenized_fr embedded_fr,
    tokenize Str.lower sentence_fr fr_words = Ok tokenized_fr
    /\ embed tokenized_fr fr_embeddings = Ok embedded_fr
    /\ shape embedded_fr = [14%nat; 300%nat].
Proof.
  intros Hshape Hwf Hin.
  eexists. eexists. split; [apply tokenize_eq|].
  split; [exact (embed_in_range fr_embeddings n 300 Hshape Hwf _ Hin)|].
  cbv [shape]. rewrite length_map. now rewrite StrFacts.lower_sentence_fr.
Qed.

(** * Further properties of the helpers *)

(** ** Fields of a sentence *)

Lemma split_app_sep sep a b :
  Str.split sep (a ++ String sep b)%string
  = Str.split sep a ++ Str.split sep b.
Proof.
  induction a as [|c rest IH]; simpl.
  - now rewrite Ascii.eqb_refl.
  - destruct (Ascii.eqb c sep); [now rewrite IH|].
    rewrite IH.
    destruct (Str.split sep rest) as [|field fields] eqn:E; [|reflexivity].
    now destruct (StrFacts.split_not_nil sep rest).
Qed.

Lemma lower_ascii_idempotent c :
  Str.lower_ascii (Str.lower_ascii c) = Str.lower_ascii c.
Proof. destruct c as [[] [] [] [] [] [] [] []]; reflexivity. Qed.

Lemma lower_app a b :
  Str.lower (a ++ b)%string = (Str.lower a ++ Str.lower b)%string.
Proof. induction a as [|c rest IH]; simpl; [reflexivity|now rewrite IH]. Qed.

(** The fields of an ASCII-lowered sentence have no upper-case letter left. *)
Lemma lower_fields_fixed s :
  Forall (fun field => Str.lower field = field)
         (Str.split " " (Str.lower s)).
Proof.
  induction s as [|c rest IH]; simpl.
  - now constructor.
  - destruct (Ascii.eqb (Str.lower_ascii c) " ").
    + now constructor.
    + destruct (Str.split " " (Str.lower rest)) as [|field fields].
      * constructor; [|constructor]. simpl. now rewrite lower_ascii_idempotent.
      * inversion IH as [|? ? Hfield Hfields]; subst.
        constructor; [|assumption].
        simpl. now rewrite lower_ascii_idempotent, Hfield.
Qed.

(** ** More on [tokenize] *)

Section TokenizeMore.

Variable str_lower : string -> string.
Implicit Types (token_mapping : gmap string Z) (sentence word : string).

(** The tokens of two dictionaries that agree on a list of words. *)
Lemma map_token_of_agree token_mapping1 token_mapping2 (words : list string) :
  (forall word, word ∈ words ->
     token_mapping1 !! word = token_mapping2 !! word) ->
  map (token_of token_mapping1) words = map (token_of token_mapping2) words.
Proof.
  induction words as [|word more IH]; intros Hagree; [reflexivity|].
  simpl. f_equal.
  - unfold token_of. rewrite (Hagree word); [reflexivity|]. apply list_elem_of_here.
  - apply IH. intros w Hw. apply Hagree. now apply list_elem_of_further.
Qed.

(** X1.  A token is the sentinel or an index that the dictionary stores for a
    field of the sentence: [tokenize] invents no other integer. *)
Theorem tokenize_tokens_from_mapping sentence token_mapping :
  exists tokens,
    tokenize str_lower sentence token_mapping = Ok tokens
    /\ forall token, token ∈ tokens ->
         token = -1
         \/ exists word,
              word ∈ Str.split " " (str_lower sentence)
              /\ token_mapping !! word = Some token.
Proof.
  eexists. split; [apply tokenize_eq|].
  intros token Hin.
  change (map (token_of token_mapping) (Str.split " " (str_lower sentence)))
    with (token_of token_mapping <$> Str.split " " (str_lower sentence)) in Hin.
  apply list_elem_of_fmap in Hin as [word [-> Hword]].
  unfold token_of.
  destruct (token_mapping !! word) as [index|] eqn:E; [right|left; reflexivity].
  exists word. now split.
Qed.

(** X2.  [tokenize] reads the dictionary at the fields of the lower-cased
    sentence only: dictionaries that agree there give the same tokens. *)
Theorem tokenize_reads_fields_only sentence token_mapping1 token_mapping2 :
  (forall word, word ∈ Str.split " " (str_lower sentence) ->
     token_mapping1 !! word = token_mapping2 !! word) ->
  tokenize str_lower sentence token_mapping1
  = tokenize str_lower sentence token_mapping2.
Proof.
  intros Hagree. rewrite !tokenize_eq. f_equal.
  now apply map_token_of_agree.
Qed.

(** X3.  The sentence is lower-cased and the keys of the dictionary are not: when
    the fields of a lower-cased sentence are lower case, an entry whose key
    is not lower case is never found, whatever the sentence. *)
Theorem tokenize_ignores_cased_key sentence token_mapping key index :
  (forall s, Forall (fun field => str_lower field = field)
                    (Str.split " " (str_lower s))) ->
  str_lower key <> key ->
  tokenize str_lower sentence (<[key := index]> token_mapping)
  = tokenize str_lower sentence token_mapping.
Proof.
  intros Hfields Hkey. rewrite !tokenize_eq. f_equal.
  apply map_token_of_agree. intros word Hword.
  apply lookup_insert_ne. intros ->.
  pose proof (Hfields sentence) as Hall.
  rewrite Forall_forall in Hall. apply Hkey, Hall. exact Hword.
Qed.

(** X4.  Two sentences joined by one space: the tokens of the first, then the
    tokens of the second, when the case mapping goes through the join. *)
Theorem tokenize_joined sentence1 sentence2 token_mapping :
  str_lower (sentence1 ++ String " " sentence2)%string
  = (str_lower sentence1 ++ String " " (str_lower sentence2))%string ->
  exists tokens1 tokens2,
    tokenize str_lower sentence1 token_mapping = Ok tokens1
    /\ tokenize str_lower sentence2 token_mapping = Ok tokens2
    /\ tokenize str_lower (sentence1 ++ String " " sentence2)%string token_mapping
       = Ok (tokens1 ++ tokens2).
Proof.
  intros Hlower. eexists. eexists.
  split; [apply tokenize_eq|]. split; [apply tokenize_eq|].
  rewrite tokenize_eq, Hlower, split_app_sep. now rewrite map_app.
Qed.

End TokenizeMore.

Lemma tokenize_reads_fields_only_witness :
  tokenize Str.lower "The cat" (<["the" := 3]> ∅)
  = tokenize Str.lower "The cat" (<["the" := 3]> (<["dog" := 7]> ∅)).
Proof.
  apply (tokenize_reads_fields_only Str.lower "The cat").
  intros word Hword. vm_compute in Hword.
  apply list_elem_of_In in Hword. simpl in Hword.
  destruct Hword as [<-|[<-|[]]]; reflexivity.
Defined.

Lemma tokenize_ignores_cased_key_witness :
  tokenize Str.lower "The cat" (<["The" := 5]> (<["the" := 3]> ∅))
  = tokenize Str.lower "The cat" (<["the" := 3]> ∅).
Proof.
  apply (tokenize_ignores_cased_key Str.lower "The cat" (<["the" := 3]> ∅) "The" 5).
  - exact lower_fields_fixed.
  - discriminate.
Defined.

Lemma tokenize_joined_witness :
  exists tokens1 tokens2,
    tokenize Str.lower "The cat" (<["the" := 3]> ∅) = Ok tokens1
    /\ tokenize Str.lower "sat DOWN" (<["the" := 3]> ∅) = Ok tokens2
    /\ tokenize Str.lower ("The cat" ++ String " " "sat DOWN")%string (<["the" := 3]> ∅)
       = Ok (tokens1 ++ tokens2).
Proof.
  apply (tokenize_joined Str.lower "The cat" "sat DOWN" (<["the" := 3]> ∅)).
  reflexivity.
Defined.

(** ** More on [embed] *)

Lemma block_subseteq sz i (buf : list float) x :
  x ∈ block sz i buf -> x ∈ buf.
Proof.
  unfold block. intros Hx.
  apply (sublist_subseteq _ _ (sublist_drop buf (i * sz))).
  now apply (sublist_subseteq _ _ (sublist_take (drop (i * sz) buf) sz)).
Qed.

Lemma embedded_row_entries embeddings n e token x :
  x ∈ embedded_row embeddings n e token ->
  x = 0%float \/ x ∈ data embeddings.
Proof.
  unfold embedded_row. destruct (token =? -1).
  - intros Hx. left. now apply elem_of_replicate_inv in Hx.
  - intros Hx. right. now apply block_subseteq in Hx.
Qed.

Lemma tokens_in_range_or_not n (tokens : list Z) :
  Forall (token_in_range n) tokens
  \/ Exists (fun token => ~ token_in_range n token) tokens.
Proof.
  induction tokens as [|token more IH]; [left; constructor|].
  destruct (token_in_range_dec n token) as [Hin|Hout].
  - destruct IH as [IH|IH]; [left; now constructor | right; now apply Exists_cons_tl].
  - right. now apply Exists_cons_hd.
Qed.

(** The row of the output at the position of a token. *)
Lemma embedded_rows_lookup embeddings n e (tokens : list Z) i token :
  shape embeddings = [n; e] ->
  well_formed embeddings ->
  Forall (token_in_range n) tokens ->
  tokens !! i = Some token ->
  row (mk_ndarray [length tokens; e]
         (concat (map (embedded_row embeddings n e) tokens))) i
  = embedded_row embeddings n e token.
Proof.
  intros Hshape Hwf Hin Hi.
  rewrite row_of_matrix. apply block_concat.
  - apply Forall_map. eapply Forall_impl; [exact Hin|].
    intros t Ht. now apply embedded_row_length.
  - change (map (embedded_row embeddings n e) tokens)
      with (embedded_row embeddings n e <$> tokens).
    now rewrite list_lookup_fmap, Hi.
Qed.

(** X5.  [embed] on the tokens of two sentences, one after the other, stacks the
    two outputs: the rows of the first, then the rows of the second. *)
Theorem embed_stacks (tokens1 tokens2 : list Z) (embeddings : ndarray) (n e : nat) :
  shape embeddings = [n; e] ->
  well_formed embeddings ->
  Forall (token_in_range n) tokens1 ->
  Forall (token_in_range n) tokens2 ->
  exists output1 output2,
    embed tokens1 embeddings = Ok output1
    /\ embed tokens2 embeddings = Ok output2
    /\ embed (tokens1 ++ tokens2) embeddings
       = Ok (mk_ndarray [(length tokens1 + length tokens2)%nat; e]
               (data output1 ++ data output2)).
Proof.
  intros Hshape Hwf Hin1 Hin2.
  eexists. eexists.
  split; [exact (embed_in_range embeddings n e Hshape Hwf tokens1 Hin1)|].
  split; [exact (embed_in_range embeddings n e Hshape Hwf tokens2 Hin2)|].
  rewrite (embed_in_range embeddings n e Hshape Hwf (tokens1 ++ tokens2))
    by (apply Forall_app; now split).
  cbv [data]. now rewrite length_app, map_app, concat_app.
Qed.

Lemma embed_stacks_witness :
  exists output1 output2,
    embed [0; -1] example_table = Ok output1
    /\ embed [-2] example_table = Ok output2
    /\ embed ([0; -1] ++ [-2]) example_table
       = Ok (mk_ndarray [3%nat; 2%nat] (data output1 ++ data output2)).
Proof.
  apply (embed_stacks [0; -1] [-2] example_table 3 2).
  - reflexivity.
  - reflexivity.
  - repeat constructor; unfold token_in_range; lia.
  - repeat constructor; unfold token_in_range; lia.
Defined.

(** X6.  [embed] does no arithmetic: every entry of its output is 0.0 or an entry
    of the table, so a table without infinities and NaNs gives an output
    without them. *)
Theorem embed_entries_from_table (tokens : list Z) (embeddings output : ndarray)
    (n e : nat) :
  shape embeddings = [n; e] ->
  well_formed embeddings ->
  embed tokens embeddings = Ok output ->
  (forall x, x ∈ data output -> x = 0%float \/ x ∈ data embeddings)
  /\ (finite embeddings = true -> finite output = true).
Proof.
  intros Hshape Hwf Hembed.
  assert (Hentries : forall x, x ∈ data output ->
                       x = 0%float \/ x ∈ data embeddings).
  { destruct (tokens_in_range_or_not n tokens) as [Hin|Hbad].
    - rewrite (embed_in_range embeddings n e Hshape Hwf tokens Hin) in Hembed.
      injection Hembed as <-. cbv [data]. intros x Hx.
      apply list_elem_of_In, in_concat in Hx as [r [Hr Hx]].
      apply in_map_iff in Hr as [token [<- _]].
      apply (embedded_row_entries embeddings n e token).
      now apply list_elem_of_In.
    - destruct (embed_out_of_range embeddings n e Hshape Hwf tokens Hbad)
        as [bad [_ [_ Hraise]]].
      rewrite Hraise in Hembed. discriminate Hembed. }
  split; [exact Hentries|].
  unfold finite. rewrite !forallb_forall. intros Hfinite x Hx.
  destruct (Hentries x) as [->|Hin]; [now apply list_elem_of_In|reflexivity|].
  apply Hfinite. now apply list_elem_of_In.
Qed.

Lemma embed_entries_from_table_witness :
  (forall x,
     x ∈ data (mk_ndarray [2%nat; 2%nat] [5; 6; 0; 0]%float) ->
     x = 0%float \/ x ∈ data example_table)
  /\ (finite example_table = true ->
      finite (mk_ndarray [2%nat; 2%nat] [5; 6; 0; 0]%float) = true).
Proof.
  apply (embed_entries_from_table [2; -1] example_table _ 3 2).
  - reflexivity.
  - reflexivity.
  - reflexivity.
Defined.


(** Writing a zero row into a zero matrix leaves it as it is. *)
Lemma setitem_zero_row m e i :
  (i < m)%nat ->
  ndarray_setitem (np_zeros [m; e]) i (np_zeros [1%nat; e])
  = Ok (np_zeros [m; e]).
Proof.
  intros Hi. unfold ndarray_setitem. cbv [np_zeros shape data].
  destruct (Nat.ltb_spec i m); [|lia].
  unfold broadcast_to_row. cbv [shape data]. simpl rev. cbv iota beta.
  simpl forallb. cbv iota. rewrite Nat.eqb_refl. cbv [bind]. do 2 f_equal.
  rewrite !size_of_matrix, take_replicate, drop_replicate, <- !replicate_add.
  f_equal. nia.
Qed.

Lemma embed_loop_sentinels embeddings e (tokens : list Z) : forall i m,
  Forall (fun token => token = -1) tokens ->
  (i + length tokens <= m)%nat ->
  embed_loop embeddings e tokens i (np_zeros [m; e]) = Ok (np_zeros [m; e]).
Proof.
  induction tokens as [|token more IH]; intros i m Hall Hi; [reflexivity|].
  inversion Hall as [|? ? Htoken Hmore]; subst. simpl in Hi.
  simpl embed_loop. unfold embed_step. simpl Z.eqb. cbv iota.
  rewrite setitem_zero_row by lia. rewrite bind_Ok.
  apply IH; [assumption|lia].
Qed.

(** X7.  Unknown words never touch the table: when every token is the sentinel
    -1, [embed] returns the zero matrix for any table that has a second
    axis, a table without rows included. *)
Theorem embed_all_unknown (tokens : list Z) (embeddings : ndarray) (e : nat) :
  shape embeddings !! 1%nat = Some e ->
  Forall (fun token => token = -1) tokens ->
  embed tokens embeddings = Ok (np_zeros [length tokens; e]).
Proof.
  intros Haxis Hall. unfold embed, tuple_getitem. rewrite Haxis, bind_Ok.
  apply embed_loop_sentinels; [assumption|lia].
Qed.

Lemma embed_all_unknown_witness :
  embed [-1; -1; -1] (mk_ndarray [0%nat; 2%nat] [])
  = Ok (np_zeros [3%nat; 2%nat]).
Proof.
  apply (embed_all_unknown [-1; -1; -1] (mk_ndarray [0%nat; 2%nat] []) 2).
  - reflexivity.
  - repeat constructor.
Defined.

(** X8.  [embeddings.shape[1]] is read before the loop: a table with fewer than
    two axes makes [embed] raise [IndexError] for every token list, the empty
    one included. *)
Theorem embed_needs_two_axes (tokens : list Z) (embeddings : ndarray) :
  (ndim embeddings < 2)%nat ->
  embed tokens embeddings = Raise IndexError.
Proof.
  unfold ndim, embed, tuple_getitem. intros Hndim.
  rewrite (lookup_ge_None_2 (shape embeddings) 1) by lia. reflexivity.
Qed.

Lemma embed_needs_two_axes_witness :
  embed [] example_vector = Raise IndexError.
Proof.
  apply (embed_needs_two_axes [] example_vector).
  unfold ndim. simpl. lia.
Defined.

(** ** A sentence through [tokenize] and [embed] *)

Section SentenceFacts.

Variable str_lower : string -> string.
Variables (token_mapping : gmap string Z) (embeddings : ndarray) (n e : nat).
Hypothesis table_shape : shape embeddings = [n; e].
Hypothesis table_wf : well_formed embeddings.

(** With indices inside the table, every token of every sentence is one
    that [embed] accepts. *)
Lemma tokens_of_fields_in_range (words : list string) :
  indices_in_table token_mapping n ->
  Forall (token_in_range n) (map (token_of token_mapping) words).
Proof.
  intros Hidx. apply Forall_map, Forall_forall. intros word _.
  unfold token_of, token_in_range.
  destruct (token_mapping !! word) as [index|] eqn:E; [right|left; reflexivity].
  exact (Hidx word index E).
Qed.

Lemma embed_sentence_in_range sentence :
  indices_in_table token_mapping n ->
  embed_sentence str_lower sentence token_mapping embeddings
  = Ok (mk_ndarray
          [length (Str.split " " (str_lower sentence)); e]
          (concat (map (embedded_row embeddings n e)
                     (map (token_of token_mapping)
                        (Str.split " " (str_lower sentence)))))).
Proof.
  intros Hidx. unfold embed_sentence. rewrite tokenize_eq, bind_Ok.
  rewrite (embed_in_range embeddings n e table_shape table_wf)
    by now apply tokens_of_fields_in_range.
  now rewrite length_map.
Qed.

Lemma embed_sentence_row sentence i field :
  indices_in_table token_mapping n ->
  Str.split " " (str_lower sentence) !! i = Some field ->
  row (mk_ndarray
         [length (Str.split " " (str_lower sentence)); e]
         (concat (map (embedded_row embeddings n e)
                    (map (token_of token_mapping)
                       (Str.split " " (str_lower sentence)))))) i
  = embedded_row embeddings n e (token_of token_mapping field).
Proof.
  intros Hidx Hfield.
  rewrite <- (length_map (token_of token_mapping)).
  apply (embedded_rows_lookup embeddings n e _ i _ table_shape table_wf).
  - now apply tokens_of_fields_in_range.
  - change (map (token_of token_mapping) (Str.split " " (str_lower sentence)))
      with (token_of token_mapping <$> Str.split " " (str_lower sentence)).
    now rewrite list_lookup_fmap, Hfield.
Qed.

End SentenceFacts.

(** X10.  When every index of the dictionary is a row of the table, tokenizing
    and embedding a sentence cannot fail, whatever the sentence: the result
    has one row per field, a zero row for a word the dictionary does not
    have, and the table row of its index for a word it has. *)
Theorem embed_sentence_total (str_lower : string -> string) (sentence : string)
    (token_mapping : gmap string Z) (embeddings : ndarray) (n e : nat) :
  shape embeddings = [n; e] ->
  well_formed embeddings ->
  indices_in_table token_mapping n ->
  exists output,
    embed_sentence str_lower sentence token_mapping embeddings = Ok output
    /\ shape output = [S (Str.count " " (str_lower sentence)); e]
    /\ forall i field,
         Str.split " " (str_lower sentence) !! i = Some field ->
         (token_mapping !! field = None -> row output i = replicate e 0%float)
         /\ (forall index,
               token_mapping !! field = Some index -> index <> -1 ->
               row output i = row embeddings (selected_row n index)).
Proof.
  intros Hshape Hwf Hidx. eexists.
  split; [exact (embed_sentence_in_range str_lower token_mapping embeddings
                   n e Hshape Hwf sentence Hidx)|].
  split; [cbv [shape]; now rewrite StrFacts.split_length|].
  intros i field Hfield.
  rewrite (embed_sentence_row str_lower token_mapping embeddings n e
             Hshape Hwf sentence i field Hidx Hfield).
  unfold embedded_row, token_of, row. rewrite Hshape. split.
  - now intros ->.
  - intros index -> Hne.
    destruct (Z.eqb_spec index (-1)); [contradiction|reflexivity].
Qed.

Lemma indices_in_table_example :
  indices_in_table (<["the" := 0]> (<["cat" := -1]> ∅)) 3.
Proof.
  intros word index Hlookup.
  apply lookup_insert_Some in Hlookup as [[_ <-]|[_ Hlookup]]; [lia|].
  apply lookup_insert_Some in Hlookup as [[_ <-]|[_ Hlookup]]; [lia|].
  now rewrite lookup_empty in Hlookup.
Qed.

Lemma embed_sentence_total_witness :
  exists output,
    embed_sentence Str.lower "The  cat" (<["the" := 0]> (<["cat" := -1]> ∅))
      example_table = Ok output
    /\ shape output = [S (Str.count " " (Str.lower "The  cat")); 2%nat]
    /\ forall i field,
         Str.split " " (Str.lower "The  cat") !! i = Some field ->
         ((<["the" := 0]> (<["cat" := -1]> ∅) : gmap string Z) !! field = None ->
          row output i = replicate 2 0%float)
         /\ (forall index,
               (<["the" := 0]> (<["cat" := -1]> ∅) : gmap string Z) !! field
               = Some index -> index <> -1 ->
               row output i = row example_table (selected_row 3 index)).
Proof.
  apply (embed_sentence_total Str.lower "The  cat"
           (<["the" := 0]> (<["cat" := -1]> ∅)) example_table 3 2).
  - reflexivity.
  - reflexivity.
  - exact indices_in_table_example.
Defined.

(** X11.  The sentinel collides with a valid index: a word that the dictionary
    maps to -1, the last row of the table in Python's indexing, gets the
    zero row of an unknown word and not that last row. *)
Theorem embed_sentence_index_minus_one (str_lower : string -> string)
    (sentence : string) (token_mapping : gmap string Z) (embeddings : ndarray)
    (n e : nat) (i : nat) (field : string) :
  shape embeddings = [n; e] ->
  well_formed embeddings ->
  indices_in_table token_mapping n ->
  Str.split " " (str_lower sentence) !! i = Some field ->
  token_mapping !! field = Some (-1) ->
  exists output,
    embed_sentence str_lower sentence token_mapping embeddings = Ok output
    /\ row output i = replicate e 0%float.
Proof.
  intros Hshape Hwf Hidx Hfield Hminus. eexists.
  split; [exact (embed_sentence_in_range str_lower token_mapping embeddings
                   n e Hshape Hwf sentence Hidx)|].
  rewrite (embed_sentence_row str_lower token_mapping embeddings n e
             Hshape Hwf sentence i field Hidx Hfield).
  unfold embedded_row, token_of. now rewrite Hminus.
Qed.

Lemma embed_sentence_index_minus_one_witness :
  exists output,
    embed_sentence Str.lower "The  cat" (<["the" := 0]> (<["cat" := -1]> ∅))
      example_table = Ok output
    /\ row output 2 = replicate 2 0%float.
Proof.
  apply (embed_sentence_index_minus_one Str.lower "The  cat"
           (<["the" := 0]> (<["cat" := -1]> ∅)) example_table 3 2 2 "cat").
  - reflexivity.
  - reflexivity.
  - exact indices_in_table_example.
  - reflexivity.
  - reflexivity.
Defined.

(** The last row of the example table is not the zero row. *)
Example example_table_last_row :
  row example_table (selected_row 3 (-1)) = [5; 6]%float.
Proof. reflexivity. Qed.

(** X12.  One word whose index is outside the table, and is not -1, makes
    the whole sentence fail: with [IndexError] or [OverflowError], and with
    [IndexError] when every index of the dictionary fits a C long. *)
Theorem embed_sentence_rejects_index (str_lower : string -> string)
    (sentence : string) (token_mapping : gmap string Z) (embeddings : ndarray)
    (n e : nat) (field : string) (index : Z) :
  shape embeddings = [n; e] ->
  well_formed embeddings ->
  field ∈ Str.split " " (str_lower sentence) ->
  token_mapping !! field = Some index ->
  index <> -1 ->
  ~ (- Z.of_nat n <= index < Z.of_nat n) ->
  (embed_sentence str_lower sentence token_mapping embeddings = Raise IndexError
   \/ embed_sentence str_lower sentence token_mapping embeddings
      = Raise OverflowError)
  /\ ((forall word stored,
         token_mapping !! word = Some stored -> - 2 ^ 63 <= stored < 2 ^ 63) ->
      embed_sentence str_lower sentence token_mapping embeddings
      = Raise IndexError).
Proof.
  intros Hshape Hwf Hfield Hlookup Hne Hout.
  unfold embed_sentence. rewrite tokenize_eq, bind_Ok.
  destruct (embed_out_of_range embeddings n e Hshape Hwf
              (map (token_of token_mapping) (Str.split " " (str_lower sentence))))
    as [bad [Hbad [Hnot Hraise]]].
  { apply Exists_exists. exists index. split.
    - apply list_elem_of_In, in_map_iff. exists field. split.
      + unfold token_of. now rewrite Hlookup.
      + now apply list_elem_of_In.
    - unfold token_in_range. lia. }
  rewrite Hraise. split.
  - unfold index_error. destruct (fits_c_long bad); [now left|now right].
  - intros Hfits. f_equal. apply index_error_fits.
    apply list_elem_of_In, in_map_iff in Hbad as [word [Hword _]].
    unfold token_of in Hword.
    destruct (token_mapping !! word) as [stored|] eqn:E.
    + subst stored. exact (Hfits word bad E).
    + subst bad. exfalso. apply Hnot. now left.
Qed.

Lemma embed_sentence_rejects_index_witness :
  (embed_sentence Str.lower "The cat" (<["cat" := 3]> ∅) example_table
   = Raise IndexError
   \/ embed_sentence Str.lower "The cat" (<["cat" := 3]> ∅) example_table
      = Raise OverflowError)
  /\ ((forall word stored,
         (<["cat" := 3]> ∅ : gmap string Z) !! word = Some stored ->
         - 2 ^ 63 <= stored < 2 ^ 63) ->
      embed_sentence Str.lower "The cat" (<["cat" := 3]> ∅) example_table
      = Raise IndexError).
Proof.
  apply (embed_sentence_rejects_index Str.lower "The cat"
           (<["cat" := 3]> ∅) example_table 3 2 "cat" 3).
  - reflexivity.
  - reflexivity.
  - apply list_elem_of_In. simpl. right. left. reflexivity.
  - reflexivity.
  - lia.
  - lia.
Defined.

Example embed_sentence_overflow :
  embed_sentence Str.lower "The cat" (<["cat" := 2 ^ 63]> ∅) example_table
  = Raise OverflowError.
Proof. reflexivity. Qed.

(** ** The third cell *)

(** X13.  With tables of two axes and indices inside them, the third cell
    embeds both sentences, into matrices of one row per field, hands them to
    [calculate_weights], and stops there, on [AttributeError]: the plot that
    follows is never drawn. *)
Theorem cell_alignment_stops_in_calculate_weights
    (str_lower : string -> string) (np_sum : ndarray -> Z -> result pyval)
    (en_words fr_words : gmap string Z) (en_embeddings fr_embeddings : ndarray)
    (n_en e_en n_fr e_fr : nat) :
  shape en_embeddings = [n_en; e_en] -> well_formed en_embeddings ->
  shape fr_embeddings = [n_fr; e_fr] -> well_formed fr_embeddings ->
  indices_in_table en_words n_en ->
  indices_in_table fr_words n_fr ->
  exists embedded_en embedded_fr,
    embed_sentence str_lower sentence_en en_words en_embeddings = Ok embedded_en
    /\ shape embedded_en = [S (Str.count " " (str_lower sentence_en)); e_en]
    /\ embed_sentence str_lower sentence_fr fr_words fr_embeddings = Ok embedded_fr
    /\ shape embedded_fr = [S (Str.count " " (str_lower sentence_fr)); e_fr]
    /\ cell_alignment str_lower np_sum en_words fr_words
         en_embeddings fr_embeddings
       = calculate_weights np_sum (PyArray embedded_fr) (PyArray embedded_en)
    /\ cell_alignment str_lower np_sum en_words fr_words
         en_embeddings fr_embeddings
       = Raise AttributeError.
Proof.
  intros Hen Hwfen Hfr Hwffr Hidxen Hidxfr.
  eexists. eexists.
  split; [exact (embed_sentence_in_range str_lower en_words en_embeddings
                   n_en e_en Hen Hwfen sentence_en Hidxen)|].
  split; [cbv [shape]; now rewrite StrFacts.split_length|].
  split; [exact (embed_sentence_in_range str_lower fr_words fr_embeddings
                   n_fr e_fr Hfr Hwffr sentence_fr Hidxfr)|].
  split; [cbv [shape]; now rewrite StrFacts.split_length|].
  assert (Hcell :
    cell_alignment str_lower np_sum en_words fr_words en_embeddings fr_embeddings
    = calculate_weights np_sum
        (PyArray (mk_ndarray
           [length (Str.split " " (str_lower sentence_fr)); e_fr]
           (concat (map (embedded_row fr_embeddings n_fr e_fr)
                      (map (token_of fr_words)
                         (Str.split " " (str_lower sentence_fr)))))))
        (PyArray (mk_ndarray
           [length (Str.split " " (str_lower sentence_en)); e_en]
           (concat (map (embedded_row en_embeddings n_en e_en)
                      (map (token_of en_words)
                         (Str.split " " (str_lower sentence_en)))))))).
  { unfold cell_alignment. rewrite tokenize_eq, bind_Ok.
    rewrite (embed_in_range en_embeddings n_en e_en Hen Hwfen)
      by now apply tokens_of_fields_in_range.
    rewrite bind_Ok, tokenize_eq, bind_Ok.
    rewrite (embed_in_range fr_embeddings n_fr e_fr Hfr Hwffr)
      by now apply tokens_of_fields_in_range.
    rewrite bind_Ok, !length_map. reflexivity. }
  split; [exact Hcell|]. rewrite Hcell. reflexivity.
Qed.

Lemma cell_alignment_stops_in_calculate_weights_witness :
  exists embedded_en embedded_fr,
    embed_sentence Str.lower sentence_en (<["the" := 0]> (<["cat" := -1]> ∅))
      example_table = Ok embedded_en
    /\ shape embedded_en = [S (Str.count " " (Str.lower sentence_en)); 2%nat]
    /\ embed_sentence Str.lower sentence_fr (<["the" := 0]> (<["cat" := -1]> ∅))
         example_table = Ok embedded_fr
    /\ shape embedded_fr = [S (Str.count " " (Str.lower sentence_fr)); 2%nat]
    /\ cell_alignment Str.lower (fun _ _ => Ok PyNone)
         (<["the" := 0]> (<["cat" := -1]> ∅)) (<["the" := 0]> (<["cat" := -1]> ∅))
         example_table example_table
       = calculate_weights (fun _ _ => Ok PyNone)
           (PyArray embedded_fr) (PyArray embedded_en)
    /\ cell_alignment Str.lower (fun _ _ => Ok PyNone)
         (<["the" := 0]> (<["cat" := -1]> ∅)) (<["the" := 0]> (<["cat" := -1]> ∅))
         example_table example_table
       = Raise AttributeError.
Proof.
  apply (cell_alignment_stops_in_calculate_weights Str.lower (fun _ _ => Ok PyNone)
           (<["the" := 0]> (<["cat" := -1]> ∅)) (<["the" := 0]> (<["cat" := -1]> ∅))
           example_table example_table 3 2 3 2).
  - reflexivity.
  - reflexivity.
  - reflexivity.
  - reflexivity.
  - exact indices_in_table_example.
  - exact indices_in_table_example.
Defined.
